(** * CVaRExpectation: the CVaR expectation converter

    A shallow embedding of
    [qiskit/aqua/operators/expectations/cvar_expectation.py]
    (class [CVaRExpectation]: [__init__], [convert] with its inner function
    [replace_with_cvar], and [compute_variance]), followed by the properties
    the specification states about it.

    Python values are rendered as follows.
    - A call that may raise returns a [result]: [Return v] or [Raise e].
      The constructor call [CVaRMeasurement(...)] inside the rewriting is
      such a call.
    - [alpha] is a Python float.  The converter only stores it and hands it
      on, so it is kept as an exact rational ([Q]); no arithmetic is done on
      it by the converter.
    - Operator objects are a tree ([OperatorBase]); the observable carried by
      a state function is opaque to the converter and is a type parameter.
    - [Optional[ExpectationBase]] is an [option]. *)

From Stdlib Require Import List Ascii String Bool Arith Lia QArith Lqa.
From Stdlib Require Import Sorted SetoidList.
Import ListNotations.

Set Implicit Arguments.
Set Warnings "-register-all".

(** ** Exceptions and fallible calls *)

(** The exceptions that appear: Python's built-in [NotImplementedError]
    (raised with or without a message), the two exceptions the constructor
    of [CVaRMeasurement] can raise (Python's [ValueError] and the package's
    own [AquaError]), and the estimator's error on an empty distribution. *)
Inductive exn : Type :=
| NotImplementedError (msg : option string)
| ValueError
| AquaError
| EmptyDistribution.

Inductive result (A : Type) : Type :=
| Return (value : A)
| Raise (e : exn).

Arguments Return {A} value.
Arguments Raise {A} e.

Definition bind {A B : Type} (c : result A) (k : A -> result B) : result B :=
  match c with
  | Return v => k v
  | Raise e => Raise e
  end.

Declare Scope py_scope.
Delimit Scope py_scope with py.
Notation "x <- c ;; k" := (bind c (fun x => k))
  (at level 61, c at next level, right associativity) : py_scope.

(** The list comprehension [[f(x) for x in l]] with a fallible [f]: the
    calls are made from left to right, and the first exception ends it. *)
Definition map_result (A B : Type) (f : A -> result B)
  : list A -> result (list B) :=
  fix go (l : list A) : result (list B) :=
    match l with
    | [] => Return []
    | x :: rest =>
        match f x with
        | Raise e => Raise e
        | Return y =>
            match go rest with
            | Raise e => Raise e
            | Return ys => Return (y :: ys)
            end
        end
    end.

(** ** Operator trees *)

(** The rule by which a composite combines its children.  The converter
    never looks at it. *)
Inductive CombinationRule : Type :=
| ListRule
| SumRule
| TensorRule
| OtherRule (name : string).

Section Operators.

(** The observable (or other payload) an operator object carries. *)
Variable Primitive : Type.

(** Modelled from the spec: the operator classes [OperatorStateFn],
    [CVaRMeasurement] and [ListOp] are declared in the sibling packages
    [state_fns] and [list_ops], which are not embedded here; only their
    imports are.  Following the data model, a node is a
    leaf carrying an observable and a measurement flag, a risk measurement
    leaf carrying an observable and [alpha], a composite owning an ordered
    sequence of children and a combination rule, or some other leaf (any
    operator object of another class). *)
Inductive OperatorBase : Type :=
| OperatorStateFn (primitive : Primitive) (is_measurement : bool)
| CVaRMeasurement (primitive : Primitive) (alpha : Q)
| ListOp (rule : CombinationRule) (oplist : list OperatorBase)
| OtherOp (cls : string) (primitive : Primitive).

(** Induction over the tree, with the hypothesis available for every
    child of a composite. *)
Section TreeInduction.
Variable P : OperatorBase -> Prop.
Hypothesis P_state : forall p m, P (OperatorStateFn p m).
Hypothesis P_cvar : forall p a, P (CVaRMeasurement p a).
Hypothesis P_list : forall rule l, Forall P l -> P (ListOp rule l).
Hypothesis P_other : forall c p, P (OtherOp c p).

Fixpoint OperatorBase_tree_ind (t : OperatorBase) : P t :=
  match t with
  | OperatorStateFn p m => P_state p m
  | CVaRMeasurement p a => P_cvar p a
  | ListOp rule l =>
      P_list rule
        ((fix children (l : list OperatorBase) : Forall P l :=
            match l with
            | [] => Forall_nil P
            | c :: r => Forall_cons c (OperatorBase_tree_ind c) (children r)
            end) l)
  | OtherOp c p => P_other c p
  end.
End TreeInduction.

(** Whether a [CVaRMeasurement] object passes the test
    [isinstance(operator, OperatorStateFn) and operator.is_measurement].
    Whether [CVaRMeasurement] derives from [OperatorStateFn] is decided in
    [state_fns], so both answers are covered: every result below holds for
    either value. *)
Variable cvar_is_measurement_state_fn : bool.

(** [isinstance(operator, OperatorStateFn) and operator.is_measurement] *)
Definition is_measurement_state_fn (operator : OperatorBase) : bool :=
  match operator with
  | OperatorStateFn _ is_measurement => is_measurement
  | CVaRMeasurement _ _ => cvar_is_measurement_state_fn
  | ListOp _ _ => false
  | OtherOp _ _ => false
  end.

(** [isinstance(operator, ListOp)] *)
Definition is_ListOp (operator : OperatorBase) : bool :=
  match operator with
  | ListOp _ _ => true
  | _ => false
  end.

(** Modelled from the spec: [ListOp.traverse] is declared in [list_ops],
    which is not embedded here.  For a composite it returns a new composite
    with the same combination rule whose children are [convert_fn] applied
    to each original child, in the original order. *)
Definition traverse (convert_fn : OperatorBase -> OperatorBase)
           (operator : OperatorBase) : OperatorBase :=
  match operator with
  | ListOp rule oplist => ListOp rule (map convert_fn oplist)
  | _ => operator
  end.

(** The tree the inner function of [convert] builds, the checks of the
    [CVaRMeasurement] constructor left aside: it is what
    [run_replace_with_cvar] below returns whenever it returns.
    [self_alpha] is the [self.alpha] the function closes over.
<<
    def replace_with_cvar(operator):
        if isinstance(operator, OperatorStateFn) and operator.is_measurement:
            return CVaRMeasurement(operator.primitive, alpha=self.alpha)
        elif isinstance(operator, ListOp):
            return operator.traverse(replace_with_cvar)
        return operator
>> *)
Fixpoint replace_with_cvar (self_alpha : Q) (operator : OperatorBase)
  : OperatorBase :=
  match operator with
  | OperatorStateFn primitive true => CVaRMeasurement primitive self_alpha
  | OperatorStateFn _ false => operator
  | CVaRMeasurement primitive _ =>
      if cvar_is_measurement_state_fn
      then CVaRMeasurement primitive self_alpha
      else operator
  | ListOp _ _ => traverse (replace_with_cvar self_alpha) operator
  | OtherOp _ _ => operator
  end.

(** ** The rewriting with its constructor calls *)

(** What the constructor of [CVaRMeasurement] ([state_fns]) raises, if
    anything, when called with a primitive and an alpha.  It is a
    parameter: the converter calls the constructor and lets its exception
    pass. *)
Variable CVaRMeasurement_check : Primitive -> Q -> option exn.

(** The call [CVaRMeasurement(primitive, alpha=alpha0)]. *)
Definition CVaRMeasurement_init (primitive : Primitive) (alpha0 : Q)
  : result OperatorBase :=
  match CVaRMeasurement_check primitive alpha0 with
  | Some e => Raise e
  | None => Return (CVaRMeasurement primitive alpha0)
  end.

(** Modelled from the spec: [ListOp.traverse] ([list_ops]) with a
    [convert_fn] that may raise.  The children are converted one by one in
    their order; an exception of [convert_fn] ends the traversal and
    passes to the caller; otherwise the new composite has the same rule
    and the converted children. *)
Definition run_traverse (convert_fn : OperatorBase -> result OperatorBase)
           (operator : OperatorBase) : result OperatorBase :=
  match operator with
  | ListOp rule oplist =>
      (children <- map_result convert_fn oplist ;;
       Return (ListOp rule children))%py
  | _ => Return operator
  end.

(** The inner function of [convert], as it runs:
<<
    def replace_with_cvar(operator):
        if isinstance(operator, OperatorStateFn) and operator.is_measurement:
            return CVaRMeasurement(operator.primitive, alpha=self.alpha)
        elif isinstance(operator, ListOp):
            return operator.traverse(replace_with_cvar)
        return operator
>> *)
Fixpoint run_replace_with_cvar (self_alpha : Q) (operator : OperatorBase)
  : result OperatorBase :=
  match operator with
  | OperatorStateFn primitive true => CVaRMeasurement_init primitive self_alpha
  | OperatorStateFn _ false => Return operator
  | CVaRMeasurement primitive _ =>
      if cvar_is_measurement_state_fn
      then CVaRMeasurement_init primitive self_alpha
      else Return operator
  | ListOp _ _ => run_traverse (run_replace_with_cvar self_alpha) operator
  | OtherOp _ _ => Return operator
  end.

(** The primitives the rewriting hands to the constructor: those of the
    leaves that pass the measurement test, left to right. *)
Fixpoint measured_primitives (node : OperatorBase) : list Primitive :=
  match node with
  | OperatorStateFn p true => [p]
  | OperatorStateFn _ false => []
  | CVaRMeasurement p _ => if cvar_is_measurement_state_fn then [p] else []
  | ListOp _ oplist => flat_map measured_primitives oplist
  | OtherOp _ _ => []
  end.

(** The exception of the first constructor call that is refused, when the
    constructor is called with [alpha0] on each of [called] in turn. *)
Fixpoint first_rejection (alpha0 : Q) (called : list Primitive)
  : option exn :=
  match called with
  | [] => None
  | p :: rest =>
      match CVaRMeasurement_check p alpha0 with
      | Some e => Some e
      | None => first_rejection alpha0 rest
      end
  end.

(** ** Observing a tree *)

(** A leaf is any node that is not a composite. *)
Definition is_leaf (node : OperatorBase) : bool := negb (is_ListOp node).

(** The leaves of a tree, left to right. *)
Fixpoint leaves (node : OperatorBase) : list OperatorBase :=
  match node with
  | ListOp _ oplist => flat_map leaves oplist
  | _ => [node]
  end.

(** The number of leaf nodes. *)
Fixpoint num_leaves (node : OperatorBase) : nat :=
  match node with
  | ListOp _ oplist => list_sum (map num_leaves oplist)
  | _ => 1
  end.

(** The node reached from [node] by descending into the children whose
    indices [path] lists; [None] when the path leaves the tree. *)
Fixpoint subtree (node : OperatorBase) (path : list nat)
  : option OperatorBase :=
  match path with
  | [] => Some node
  | i :: rest =>
      match node with
      | ListOp _ oplist =>
          match nth_error oplist i with
          | Some child => subtree child rest
          | None => None
          end
      | _ => None
      end
  end.

(** The shape of a tree: its composites with their combination rules and
    the arrangement of their children, the contents of the leaves erased. *)
Inductive Shape : Type :=
| LeafShape
| CompositeShape (rule : CombinationRule) (children : list Shape).

Fixpoint shape (node : OperatorBase) : Shape :=
  match node with
  | ListOp rule oplist => CompositeShape rule (map shape oplist)
  | _ => LeafShape
  end.

(** Relabelling of the observables of a tree, everything else kept. *)
Fixpoint map_primitive (f : Primitive -> Primitive) (node : OperatorBase)
  : OperatorBase :=
  match node with
  | OperatorStateFn p m => OperatorStateFn (f p) m
  | CVaRMeasurement p a => CVaRMeasurement (f p) a
  | ListOp rule oplist => ListOp rule (map (map_primitive f) oplist)
  | OtherOp c p => OtherOp c (f p)
  end.

(** The observables the leaves of a tree carry, left to right. *)
Fixpoint primitives (node : OperatorBase) : list Primitive :=
  match node with
  | OperatorStateFn p _ => [p]
  | CVaRMeasurement p _ => [p]
  | ListOp _ oplist => flat_map primitives oplist
  | OtherOp _ p => [p]
  end.

(** An [OperatorStateFn] object with its measurement flag set (an object
    built as an [OperatorStateFn], not as a [CVaRMeasurement]). *)
Definition is_plain_measurement (node : OperatorBase) : bool :=
  match node with
  | OperatorStateFn _ is_measurement => is_measurement
  | _ => false
  end.

(** A [CVaRMeasurement] object. *)
Definition is_CVaRMeasurement (node : OperatorBase) : bool :=
  match node with
  | CVaRMeasurement _ _ => true
  | _ => false
  end.

(** ** The specified tree rewriter *)

(** The rewriter as the specification words it, for any predicate and
    transform: a leaf matching the predicate is transformed; a composite
    becomes a new composite with the same rule and the rewritten children
    in order; any other leaf is returned as it is. *)
Fixpoint spec_rewrite (predicate : OperatorBase -> bool)
         (transform : OperatorBase -> OperatorBase) (node : OperatorBase)
  : OperatorBase :=
  match node with
  | ListOp rule oplist =>
      ListOp rule (map (spec_rewrite predicate transform) oplist)
  | _ => if predicate node then transform node else node
  end.

(** The predicate of the specification: a leaf whose measurement flag is
    true. *)
Definition spec_measurementPredicate (node : OperatorBase) : bool :=
  is_leaf node && is_measurement_state_fn node.

(** The transform of the specification: a risk measurement node wrapping
    the leaf's observable and the configured alpha. *)
Definition spec_transform (configured_alpha : Q) (node : OperatorBase)
  : OperatorBase :=
  match node with
  | OperatorStateFn p _ => CVaRMeasurement p configured_alpha
  | CVaRMeasurement p _ => CVaRMeasurement p configured_alpha
  | _ => node
  end.

(** ** Base converters and the converter object *)

(** The expectation converters that can be handed to the constructor.
    [PauliExpectation] is the object [PauliExpectation()] builds. *)
Inductive ExpectationBase : Type :=
| PauliExpectation
| AerPauliExpectation
| OtherExpectation (cls : string).

(** [isinstance(expectation, AerPauliExpectation)]; [None] is no instance
    of it. *)
Definition is_AerPauliExpectation (expectation : option ExpectationBase)
  : bool :=
  match expectation with
  | Some AerPauliExpectation => true
  | _ => false
  end.

(** The [convert] method of the base converters ([pauli_expectation] and
    the other converter modules) is a parameter, and it may raise. *)
Variable base_convert : ExpectationBase -> OperatorBase -> result OperatorBase.

(** The attributes [__init__] sets. *)
Record CVaRExpectation : Type := {
  alpha : Q;
  expectation : ExpectationBase
}.

(** [CVaRExpectation.__init__]:
<<
    self.alpha = alpha
    if isinstance(expectation, AerPauliExpectation):
        raise NotImplementedError('AerPauliExpecation currently not supported.')
    if expectation is None:
        expectation = PauliExpectation()
    self.expectation = expectation
>> *)
Definition init (alpha0 : Q) (expectation0 : option ExpectationBase)
  : result CVaRExpectation :=
  if is_AerPauliExpectation expectation0
  then Raise (NotImplementedError
                (Some "AerPauliExpecation currently not supported."%string))
  else
    let expectation1 :=
      match expectation0 with
      | None => PauliExpectation
      | Some e => e
      end in
    Return {| alpha := alpha0; expectation := expectation1 |}.

(** [CVaRExpectation.convert]:
<<
    expectation = self.expectation.convert(operator)
    ...
    return replace_with_cvar(expectation)
>> *)
Definition convert (self : CVaRExpectation) (operator : OperatorBase)
  : result OperatorBase :=
  (tree <- base_convert (expectation self) operator ;;
   run_replace_with_cvar (alpha self) tree)%py.

(** [CVaRExpectation.compute_variance]: [raise NotImplementedError]. *)
Definition compute_variance (self : CVaRExpectation) (exp_op : OperatorBase)
  : result Q :=
  Raise (NotImplementedError None).

End Operators.

Arguments ListOp {Primitive} rule oplist.
Arguments LeafShape : clear implicits.

(** ** The CVaR estimator *)

(** A sampled distribution: pairs of an outcome and its probability mass,
    in the order the sampler produced them; an outcome may occur more than
    once.  Outcomes and masses are exact rationals, so the estimate is the
    exact value the floating-point computation approximates. *)
Definition SampledDistribution : Type := list (Q * Q).

(** Step 1, one pair: add [mass] to the entry of [value], or open one. *)
Fixpoint add_mass (value mass : Q) (pairs : list (Q * Q)) : list (Q * Q) :=
  match pairs with
  | [] => [(value, mass)]
  | (v, m) :: rest =>
      if Qeq_bool value v
      then (v, m + mass) :: rest
      else (v, m) :: add_mass value mass rest
  end.

(** Step 1: merge equal outcomes, summing their masses. *)
Definition aggregate (distribution : SampledDistribution) : list (Q * Q) :=
  fold_left (fun merged pair => add_mass (fst pair) (snd pair) merged)
            distribution [].

(** Step 2, one pair: insert into a list ascending by outcome. *)
Fixpoint insert_by_value (pair : Q * Q) (sorted : list (Q * Q))
  : list (Q * Q) :=
  match sorted with
  | [] => [pair]
  | head :: rest =>
      if Qle_bool (fst pair) (fst head)
      then pair :: head :: rest
      else head :: insert_by_value pair rest
  end.

(** Step 2: sort ascending by outcome. *)
Definition sort_by_value (pairs : list (Q * Q)) : list (Q * Q) :=
  fold_right insert_by_value [] pairs.

(** Steps 3 and 4: walk the sorted pairs from the smallest outcome upward.
    [cumulative] is the mass of the pairs already fully included and
    [included] their sum of outcome times mass.  The first pair with which
    the cumulative mass reaches [alpha] is the boundary pair; it adds only
    the mass still missing, [alpha - cumulative].  When the pairs run out
    before [alpha] is reached, all of them are fully included. *)
Fixpoint accumulate (alpha cumulative included : Q) (pairs : list (Q * Q))
  : Q :=
  match pairs with
  | [] => included
  | (v, m) :: rest =>
      if Qle_bool alpha (cumulative + m)
      then included + v * (alpha - cumulative)
      else accumulate alpha (cumulative + m) (included + v * m) rest
  end.

(** Modelled from the spec: the estimator ([estimate], the evaluation of a
    risk measurement node on a sampled distribution) belongs to
    [state_fns], which is not embedded here.  It follows the six steps of
    the specified algorithm: fail on the empty distribution, aggregate,
    sort, accumulate up to the boundary pair, and divide by [alpha]. *)
Definition estimate (distribution : SampledDistribution) (alpha : Q)
  : result Q :=
  match distribution with
  | [] => Raise EmptyDistribution
  | _ :: _ =>
      Return (accumulate alpha 0 0 (sort_by_value (aggregate distribution))
              / alpha)
  end.

(** The sum of outcome times mass. *)
Definition weighted_sum (pairs : list (Q * Q)) : Q :=
  fold_right (fun pair s => fst pair * snd pair + s) 0 pairs.

(** The sum of the masses. *)
Definition total_mass (pairs : list (Q * Q)) : Q :=
  fold_right (fun pair s => snd pair + s) 0 pairs.

(** The plain probability-weighted mean of a distribution. *)
Definition mean (distribution : SampledDistribution) : Q :=
  weighted_sum distribution / total_mass distribution.

(** A valid distribution: not empty, no negative mass, masses summing to
    one. *)
Definition valid_distribution (distribution : SampledDistribution) : Prop :=
  distribution <> [] /\
  Forall (fun pair => 0 <= snd pair) distribution /\
  total_mass distribution == 1.

(** Two pairs with the same outcome, and two pairs in ascending order of
    outcome. *)
Definition same_outcome (p q : Q * Q) : Prop := fst p == fst q.
Definition outcome_le (p q : Q * Q) : Prop := fst p <= fst q.

(** The range the specification gives for alpha. *)
Definition alpha_in_range (a : Q) : Prop := 0 < a /\ a <= 1.

(** ** Concrete inputs *)

(** A base converter that hands the operator back as the expectation tree;
    it lets the converter run on concrete trees. *)
Definition identity_converter (Primitive : Type) (e : ExpectationBase)
           (operator : OperatorBase Primitive)
  : result (OperatorBase Primitive) :=
  Return operator.

(** A converter that handles nothing. *)
Definition failing_converter (Primitive : Type) (e : ExpectationBase)
           (operator : OperatorBase Primitive)
  : result (OperatorBase Primitive) :=
  Raise (NotImplementedError None).

(** A sum of a measurement of ["ZZ"] against a state and a list holding a
    measurement of the non-diagonal ["XX"] and a plain operator. *)
Definition sample_tree : OperatorBase string :=
  ListOp SumRule
    [ OperatorStateFn "ZZ"%string true;
      OperatorStateFn "psi"%string false;
      ListOp ListRule
        [ OperatorStateFn "XX"%string true; OtherOp "PauliOp"%string "YI"%string ] ].

(** The same tree with the diagonal ["ZI"] in the place of ["XX"]. *)
Definition diagonal_tree : OperatorBase string :=
  ListOp SumRule
    [ OperatorStateFn "ZZ"%string true;
      OperatorStateFn "psi"%string false;
      ListOp ListRule
        [ OperatorStateFn "ZI"%string true; OtherOp "PauliOp"%string "YI"%string ] ].

(** An observable named by a string of Pauli letters is diagonal when it
    has no letter other than I and Z. *)
Fixpoint is_diagonal_pauli (label : string) : bool :=
  match label with
  | EmptyString => true
  | String c rest =>
      (Ascii.eqb c "I"%char || Ascii.eqb c "Z"%char) && is_diagonal_pauli rest
  end.

(** Modelled from the spec: the constructor of [CVaRMeasurement] is
    declared in [state_fns], which is not embedded here.  A risk
    measurement node wraps a diagonal observable and an alpha of the
    documented range (the class docstring of [CVaRExpectation] has alpha in
    [0,1]); the constructor refuses an alpha out of that range with a
    [ValueError] and, next, an observable that is not diagonal with an
    [AquaError]. *)
Definition pauli_check (label : string) (alpha0 : Q) : option exn :=
  if negb (Qle_bool 0 alpha0 && Qle_bool alpha0 1) then Some ValueError
  else if negb (is_diagonal_pauli label) then Some AquaError
  else None.

(** A tree without any measurement. *)
Definition state_only_tree : OperatorBase string :=
  ListOp TensorRule
    [ OperatorStateFn "psi"%string false;
      ListOp ListRule [ OtherOp "CircuitStateFn"%string "phi"%string ] ].

Definition sample_converter : CVaRExpectation :=
  {| alpha := 1 # 4; expectation := PauliExpectation |}.

(** The converter [CVaRExpectation(2)] builds. *)
Definition wide_converter : CVaRExpectation :=
  {| alpha := 2 # 1; expectation := PauliExpectation |}.

(** The three distributions of the specification's scenarios, and one with
    a repeated outcome given out of order. *)
Definition two_point : SampledDistribution := [(0, 1 # 2); (10 # 1, 1 # 2)].
Definition three_point : SampledDistribution :=
  [(0, 3 # 10); (5 # 1, 3 # 10); (10 # 1, 4 # 10)].
Definition single_point : SampledDistribution := [(7 # 1, 1)].
Definition unsorted_repeated : SampledDistribution :=
  [(10 # 1, 1 # 4); (0, 1 # 2); (10 # 1, 1 # 4)].

(** A converter stacked on another one: [outer_converter] has as its base
    converter the converter object [inner_converter], itself based on
    [PauliExpectation].  [stacked_dispatch] sends every converter object
    that is not one of the Pauli converters to [inner_converter]. *)
Definition inner_converter : CVaRExpectation :=
  {| alpha := 1 # 2; expectation := PauliExpectation |}.

Definition outer_converter : CVaRExpectation :=
  {| alpha := 1 # 4; expectation := OtherExpectation "CVaRExpectation" |}.

Definition stacked_dispatch (e : ExpectationBase)
           (operator : OperatorBase string) : result (OperatorBase string) :=
  match e with
  | OtherExpectation _ =>
      convert true pauli_check (@identity_converter string) inner_converter
              operator
  | _ => identity_converter e operator
  end.

(** * Properties of the tree rewriting *)

Section RewritingProperties.

Variable Primitive : Type.
Variable cvar_flag : bool.

Local Abbreviation tree := (OperatorBase Primitive).
Local Abbreviation replace := (replace_with_cvar cvar_flag).
Local Abbreviation matches := (is_measurement_state_fn cvar_flag).

(** The rewriting of a composite, unfolded once. *)
Lemma replace_ListOp (a : Q) (rule : CombinationRule) (l : list tree) :
  replace a (ListOp rule l) = ListOp rule (map (replace a) l).
Proof. reflexivity. Qed.

(** A node that passes the test is a leaf. *)
Lemma matches_is_leaf (n : tree) : matches n = true -> is_leaf n = true.
Proof. unfold is_leaf. destruct n; simpl; congruence. Qed.

(** A leaf that fails the test is returned as it is. *)
Lemma replace_unmatched_leaf (a : Q) (n : tree) :
  is_leaf n = true -> matches n = false -> replace a n = n.
Proof.
  destruct n as [p m | p a' | rule l | c p]; simpl; intros Hleaf Hm.
  - subst m. reflexivity.
  - rewrite Hm. reflexivity.
  - discriminate Hleaf.
  - reflexivity.
Qed.

(** A leaf that passes the test becomes the transform of the
    specification. *)
Lemma replace_matched_leaf (a : Q) (n : tree) :
  matches n = true -> replace a n = spec_transform a n.
Proof.
  destruct n as [p m | p a' | rule l | c p]; simpl; intros Hm;
    try discriminate Hm.
  - subst m. reflexivity.
  - rewrite Hm. reflexivity.
Qed.

(** The source function is the specified rewriter at the measurement
    predicate and the risk measurement transform. *)
Lemma replace_is_spec_rewrite (a : Q) (t : tree) :
  replace a t =
  spec_rewrite (spec_measurementPredicate cvar_flag) (spec_transform a) t.
Proof.
  induction t as [p m | p a' | rule l IH | c p] using OperatorBase_tree_ind.
  - destruct m; reflexivity.
  - unfold spec_measurementPredicate. simpl. destruct cvar_flag; reflexivity.
  - rewrite replace_ListOp. simpl. f_equal.
    apply map_ext_in. intros c Hc.
    rewrite Forall_forall in IH. now apply IH.
  - reflexivity.
Qed.

(** Descending a path commutes with the rewriting: what sits at a path of
    the rewritten tree is the rewriting of what sat there before. *)
Lemma subtree_replace (a : Q) (path : list nat) :
  forall t : tree,
    subtree (replace a t) path = option_map (replace a) (subtree t path).
Proof.
  induction path as [| i rest IH]; intros t.
  - reflexivity.
  - destruct t as [p m | p a' | rule l | c p].
    + destruct m; reflexivity.
    + simpl. destruct cvar_flag; reflexivity.
    + rewrite replace_ListOp. simpl. rewrite nth_error_map.
      destruct (nth_error l i) as [child |]; simpl.
      * apply IH.
      * reflexivity.
    + reflexivity.
Qed.

(** The rewriting keeps the number of leaves. *)
Lemma num_leaves_replace (a : Q) (t : tree) :
  num_leaves (replace a t) = num_leaves t.
Proof.
  induction t as [p m | p a' | rule l IH | c p] using OperatorBase_tree_ind.
  - destruct m; reflexivity.
  - simpl. destruct cvar_flag; reflexivity.
  - rewrite replace_ListOp. simpl. rewrite map_map. f_equal.
    apply map_ext_in. intros c Hc.
    rewrite Forall_forall in IH. now apply IH.
  - reflexivity.
Qed.

(** The rewriting keeps the shape. *)
Lemma shape_replace (a : Q) (t : tree) : shape (replace a t) = shape t.
Proof.
  induction t as [p m | p a' | rule l IH | c p] using OperatorBase_tree_ind.
  - destruct m; reflexivity.
  - simpl. destruct cvar_flag; reflexivity.
  - rewrite replace_ListOp. simpl. rewrite map_map. f_equal.
    apply map_ext_in. intros c Hc.
    rewrite Forall_forall in IH. now apply IH.
  - reflexivity.
Qed.

(** A tree none of whose leaves passes the test is a fixed point. *)
Lemma replace_no_match (a : Q) (t : tree) :
  forallb (fun n => negb (matches n)) (leaves t) = true -> replace a t = t.
Proof.
  induction t as [p m | p a' | rule l IH | c p] using OperatorBase_tree_ind;
    simpl; intros H.
  - destruct m; [discriminate H | reflexivity].
  - destruct cvar_flag; [discriminate H | reflexivity].
  - f_equal. rewrite <- (map_id l) at 2.
    apply map_ext_in. intros c Hc.
    rewrite Forall_forall in IH. apply IH; [exact Hc |].
    rewrite forallb_forall in H |- *. intros n Hn.
    apply H. apply in_flat_map. exists c. split; assumption.
  - reflexivity.
Qed.

(** The rewriting commutes with any relabelling of the observables. *)
Lemma replace_map_primitive (a : Q) (f : Primitive -> Primitive) (t : tree) :
  replace a (map_primitive f t) = map_primitive f (replace a t).
Proof.
  induction t as [p m | p a' | rule l IH | c p] using OperatorBase_tree_ind.
  - destruct m; reflexivity.
  - simpl. destruct cvar_flag; reflexivity.
  - simpl. f_equal. rewrite !map_map.
    apply map_ext_in. intros c Hc.
    rewrite Forall_forall in IH. now apply IH.
  - reflexivity.
Qed.

End RewritingProperties.

(** * The rewriting as it runs *)

Section RunProperties.

Variable Primitive : Type.
Variable cvar_flag : bool.
Variable cvar_check : Primitive -> Q -> option exn.

Local Abbreviation tree := (OperatorBase Primitive).
Local Abbreviation replace := (replace_with_cvar cvar_flag).
Local Abbreviation run := (run_replace_with_cvar cvar_flag cvar_check).
Local Abbreviation called := (measured_primitives cvar_flag).
Local Abbreviation rejection := (first_rejection cvar_check).

(** The first refusal among two runs of calls is the first refusal of the
    first run, or else that of the second. *)
Lemma first_rejection_app (a : Q) (l1 l2 : list Primitive) :
  rejection a (l1 ++ l2) =
  match rejection a l1 with
  | Some e => Some e
  | None => rejection a l2
  end.
Proof.
  induction l1 as [| p r IH]; simpl.
  - reflexivity.
  - destruct (cvar_check p a); [reflexivity | exact IH].
Qed.



(** The outcome of the rewriting: it raises the exception of the first
    constructor call that is refused, the calls being made for the
    measurement leaves from left to right; when none is refused it returns
    the tree [replace_with_cvar] describes. *)
Lemma run_replace_outcome (a : Q) (t : tree) :
  run a t =
  match rejection a (called t) with
  | Some e => Raise e
  | None => Return (replace a t)
  end.
Proof.
  induction t as [p m | p a' | rule l IH | c p] using OperatorBase_tree_ind.
  - destruct m; simpl; [| reflexivity].
    unfold CVaRMeasurement_init. destruct (cvar_check p a); reflexivity.
  - simpl. destruct cvar_flag; simpl; [| reflexivity].
    unfold CVaRMeasurement_init. destruct (cvar_check p a); reflexivity.
  - simpl. unfold bind.
    assert (H : map_result (run a) l =
                match rejection a (flat_map called l) with
                | Some e => Raise e
                | None => Return (map (replace a) l)
                end).
    { induction IH as [| c r Hc Hr IHr]; simpl.
      - reflexivity.
      - rewrite Hc, first_rejection_app.
        destruct (rejection a (called c)); [reflexivity |].
        rewrite IHr.
        destruct (rejection a (flat_map called r)); reflexivity. }
    rewrite H.
    destruct (rejection a (flat_map called l)); reflexivity.
  - reflexivity.
Qed.

(** The constructor calls a second rewriting makes: the same as the first
    when [CVaRMeasurement] objects pass the measurement test, none when
    they do not. *)
Lemma measured_primitives_replace (a : Q) (t : tree) :
  called (replace a t) = if cvar_flag then called t else [].
Proof.
  induction t as [p m | p a' | rule l IH | c p] using OperatorBase_tree_ind.
  - destruct m; simpl; destruct cvar_flag; reflexivity.
  - simpl. destruct cvar_flag eqn:E; simpl; try rewrite E; reflexivity.
  - rewrite replace_ListOp. simpl.
    induction IH as [| c r Hc Hr IHr]; simpl.
    + destruct cvar_flag; reflexivity.
    + rewrite Hc, IHr. destruct cvar_flag; reflexivity.
  - simpl. destruct cvar_flag; reflexivity.
Qed.

End RunProperties.

(** * Properties of the converter *)

Section ConverterProperties.

Variable Primitive : Type.
Variable cvar_flag : bool.
Variable cvar_check : Primitive -> Q -> option exn.
Variable base_convert :
  ExpectationBase -> OperatorBase Primitive -> result (OperatorBase Primitive).

Local Abbreviation tree := (OperatorBase Primitive).
Local Abbreviation replace := (replace_with_cvar cvar_flag).
Local Abbreviation matches := (is_measurement_state_fn cvar_flag).
Local Abbreviation convert := (convert cvar_flag cvar_check base_convert).
Local Abbreviation called := (measured_primitives cvar_flag).
Local Abbreviation rejection := (first_rejection cvar_check).

(** What [convert] does, in terms of the base converter's answer and of
    the constructor's. *)
Lemma convert_unfold (self : CVaRExpectation) (operator : tree) :
  convert self operator =
  match base_convert (expectation self) operator with
  | Return t =>
      match rejection (alpha self) (called t) with
      | Some e => Raise e
      | None => Return (replace (alpha self) t)
      end
  | Raise e => Raise e
  end.
Proof.
  transitivity
    (bind (base_convert (expectation self) operator)
          (run_replace_with_cvar cvar_flag cvar_check (alpha self)));
    [reflexivity |].
  unfold bind.
  destruct (base_convert (expectation self) operator) as [t | e];
    [apply run_replace_outcome | reflexivity].
Qed.

(** C1, amended.  [convert] first delegates to the base converter and
    raises what it raises.  On the tree the base converter returns it
    calls the [CVaRMeasurement] constructor, with the leaf's primitive and
    the alpha given at construction, for each measurement leaf from left to
    right; it raises the exception of the first call the constructor
    refuses, and when none is refused it returns what the specified
    rewriter gives at the measurement predicate and the risk measurement
    transform.  In every tree it returns, each place that held a
    measurement leaf holds a [CVaRMeasurement] of that leaf's primitive
    with that alpha, and every [CVaRMeasurement] that was not already in
    the base tree carries that alpha. *)
Theorem convert_replaces_measurements
        (self : CVaRExpectation) (operator : tree) :
  convert self operator =
    (t <- base_convert (expectation self) operator ;;
     match first_rejection cvar_check (alpha self)
                           (measured_primitives cvar_flag t) with
     | Some e => Raise e
     | None =>
         Return (spec_rewrite (spec_measurementPredicate cvar_flag)
                              (spec_transform (alpha self)) t)
     end)%py
  /\
  forall t out,
    base_convert (expectation self) operator = Return t ->
    convert self operator = Return out ->
    (forall path p,
        subtree t path = Some (OperatorStateFn p true) ->
        subtree out path = Some (CVaRMeasurement p (alpha self))) /\
    (forall path p a,
        subtree out path = Some (CVaRMeasurement p a) ->
        a = alpha self \/ subtree t path = Some (CVaRMeasurement p a)).
Proof.
  split.
  - rewrite convert_unfold. unfold bind.
    destruct (base_convert (expectation self) operator) as [t | e].
    + now rewrite replace_is_spec_rewrite.
    + reflexivity.
  - intros t out Hbase Hout. rewrite convert_unfold, Hbase in Hout.
    destruct (rejection (alpha self) (called t)); [discriminate Hout |].
    injection Hout as <-. split.
    + intros path p Hp. rewrite subtree_replace, Hp. reflexivity.
    + intros path p a Hout. rewrite subtree_replace in Hout.
      destruct (subtree t path) as [n |]; [| discriminate Hout].
      simpl in Hout.
      destruct n as [p' m | p' a' | rule l | c p'].
      * destruct m; simpl in Hout; [| discriminate Hout].
        left. congruence.
      * simpl in Hout. destruct cvar_flag.
        -- left. congruence.
        -- right. exact Hout.
      * rewrite replace_ListOp in Hout. discriminate Hout.
      * discriminate Hout.
Qed.

(** C5.  The rewriting keeps the structure of the tree: the number of
    leaves is the same, the shape (every composite with its combination
    rule and the arrangement of its children) is the same, and every
    composite of the input is found at the same place in the result with
    the same rule and with its children rewritten one by one in their
    original order. *)
Theorem replace_preserves_structure (a : Q) (t : tree) :
  num_leaves (replace a t) = num_leaves t /\
  shape (replace a t) = shape t /\
  forall path rule l,
    subtree t path = Some (ListOp rule l) ->
    subtree (replace a t) path = Some (ListOp rule (map (replace a) l)).
Proof.
  split; [apply num_leaves_replace | split; [apply shape_replace |]].
  intros path rule l H. rewrite subtree_replace, H. reflexivity.
Qed.

(** C6.  A leaf that is not a measurement state function is returned as it
    is; wherever such a leaf sits in a tree, the rewritten tree holds the
    very same leaf at that place. *)
Theorem replace_keeps_other_leaves
        (a : Q) (t : tree) (path : list nat) (n : tree) :
  subtree t path = Some n ->
  is_leaf n = true ->
  matches n = false ->
  replace a n = n /\ subtree (replace a t) path = Some n.
Proof.
  intros Hsub Hleaf Hm.
  assert (Hn : replace a n = n) by now apply replace_unmatched_leaf.
  split; [exact Hn |].
  rewrite subtree_replace, Hsub. simpl. now rewrite Hn.
Qed.

(** C7.  On a tree none of whose leaves is a measurement state function
    the rewriting returns its input: the same tree, hence the same shape
    and the same leaves in the same order. *)
Theorem replace_identity_without_measurements (a : Q) (t : tree) :
  forallb (fun n => negb (matches n)) (leaves t) = true ->
  replace a t = t /\
  shape (replace a t) = shape t /\
  leaves (replace a t) = leaves t.
Proof.
  intros H. apply replace_no_match with (a := a) in H.
  rewrite H. repeat split.
Qed.


(** C8.  Without a base converter ([None], which is also the default of
    the argument) construction succeeds for every alpha, the converter
    holds [PauliExpectation] as its base converter, and its [convert]
    delegates to it. *)
Theorem init_default_is_PauliExpectation (a : Q) (operator : tree) :
  init a None = Return {| alpha := a; expectation := PauliExpectation |} /\
  convert {| alpha := a; expectation := PauliExpectation |} operator =
    (t <- base_convert PauliExpectation operator ;;
     run_replace_with_cvar cvar_flag cvar_check a t)%py.
Proof. split; reflexivity. Qed.

(** C3.  [compute_variance] raises [NotImplementedError] whatever the
    converter and the tree are, and so never returns a value. *)
Theorem compute_variance_always_raises
        (self : CVaRExpectation) (exp_op : tree) :
  compute_variance self exp_op = Raise (NotImplementedError None) /\
  forall v, compute_variance self exp_op <> Return v.
Proof. split; [reflexivity | intros v H; discriminate H]. Qed.

End ConverterProperties.

(** ** Construction *)

(** C2.  Construction with an [AerPauliExpectation] as base converter
    raises, for every alpha, and returns no converter.  The exception is
    Python's [NotImplementedError] with the message of the source; it is
    the error the specification calls UnsupportedConfiguration. *)
Theorem init_rejects_AerPauliExpectation (a : Q) :
  init a (Some AerPauliExpectation) =
    Raise (NotImplementedError
             (Some "AerPauliExpecation currently not supported."%string)) /\
  forall self, init a (Some AerPauliExpectation) <> Return self.
Proof. split; [reflexivity | intros self H; discriminate H]. Qed.

(** C4, as the specification states it, fails: alpha = 2 lies outside
    (0,1], yet construction returns a converter holding it. *)
Lemma init_accepts_alpha_out_of_range :
  ~ alpha_in_range (2 # 1) /\
  exists self, init (2 # 1) None = Return self /\ alpha self = 2 # 1.
Proof.
  split.
  - intros [_ H]. revert H. apply Qlt_not_le. reflexivity.
  - eexists. split; reflexivity.
Qed.

(** C4, amended.  Construction does not look at alpha: whenever the base
    converter is not an [AerPauliExpectation], construction succeeds for
    every alpha, in (0,1] or not, and the converter holds the alpha it was
    given. *)
Theorem init_does_not_validate_alpha
        (a : Q) (expectation0 : option ExpectationBase) :
  is_AerPauliExpectation expectation0 = false ->
  exists self, init a expectation0 = Return self /\ alpha self = a.
Proof.
  intros H. unfold init. rewrite H. eexists. split; reflexivity.
Qed.

(** * Properties of the estimator *)

Section EstimatorProperties.

Local Abbreviation nonneg := (Forall (fun pair : Q * Q => 0 <= snd pair)).

(** Merging one pair adds its contribution and its mass, and keeps the
    masses non-negative. *)
Lemma weighted_sum_add_mass (value mass : Q) (pairs : list (Q * Q)) :
  weighted_sum (add_mass value mass pairs) ==
  value * mass + weighted_sum pairs.
Proof.
  induction pairs as [| [v m] rest IH]; simpl.
  - reflexivity.
  - destruct (Qeq_bool value v) eqn:E; simpl.
    + apply Qeq_bool_eq in E. rewrite E. ring.
    + rewrite IH. ring.
Qed.

Lemma total_mass_add_mass (value mass : Q) (pairs : list (Q * Q)) :
  total_mass (add_mass value mass pairs) == mass + total_mass pairs.
Proof.
  induction pairs as [| [v m] rest IH]; simpl.
  - reflexivity.
  - destruct (Qeq_bool value v); simpl.
    + ring.
    + rewrite IH. ring.
Qed.

Lemma nonneg_add_mass (value mass : Q) (pairs : list (Q * Q)) :
  0 <= mass -> nonneg pairs -> nonneg (add_mass value mass pairs).
Proof.
  intros Hm. induction 1 as [| [v m] rest Hpair Hrest IH]; simpl.
  - constructor; [exact Hm | constructor].
  - simpl in Hpair. destruct (Qeq_bool value v).
    + constructor; [simpl; lra | exact Hrest].
    + constructor; [exact Hpair | exact IH].
Qed.

(** Aggregation keeps the weighted sum, the total mass and the sign of the
    masses. *)
Lemma aggregate_invariants (distribution merged : list (Q * Q)) :
  let out :=
    fold_left (fun acc pair => add_mass (fst pair) (snd pair) acc)
              distribution merged in
  weighted_sum out == weighted_sum distribution + weighted_sum merged /\
  total_mass out == total_mass distribution + total_mass merged /\
  (nonneg distribution -> nonneg merged -> nonneg out).
Proof.
  revert merged.
  induction distribution as [| [v m] rest IH]; intros merged; simpl.
  - repeat split; try ring. intros _ H. exact H.
  - destruct (IH (add_mass v m merged)) as [Hw [Ht Hn]].
    repeat split.
    + rewrite Hw, weighted_sum_add_mass. ring.
    + rewrite Ht, total_mass_add_mass. ring.
    + intros Hd Hmerged. inversion Hd; subst.
      apply Hn; [assumption |]. now apply nonneg_add_mass.
Qed.

(** Sorting keeps them too. *)
Lemma insert_by_value_invariants (pair : Q * Q) (sorted : list (Q * Q)) :
  weighted_sum (insert_by_value pair sorted) ==
    fst pair * snd pair + weighted_sum sorted /\
  total_mass (insert_by_value pair sorted) == snd pair + total_mass sorted /\
  (0 <= snd pair -> nonneg sorted -> nonneg (insert_by_value pair sorted)).
Proof.
  induction sorted as [| head rest [Hw [Ht Hn]]]; simpl.
  - repeat split; try reflexivity. intros; constructor; assumption.
  - destruct (Qle_bool (fst pair) (fst head)); simpl.
    + repeat split; try reflexivity. intros; constructor; assumption.
    + repeat split.
      * rewrite Hw. ring.
      * rewrite Ht. ring.
      * intros Hp Hs. inversion Hs; subst.
        constructor; [assumption | now apply Hn].
Qed.

Lemma sort_by_value_invariants (pairs : list (Q * Q)) :
  weighted_sum (sort_by_value pairs) == weighted_sum pairs /\
  total_mass (sort_by_value pairs) == total_mass pairs /\
  (nonneg pairs -> nonneg (sort_by_value pairs)).
Proof.
  induction pairs as [| pair rest [Hw [Ht Hn]]]; simpl.
  - repeat split; try reflexivity. intros H; exact H.
  - destruct (insert_by_value_invariants pair (sort_by_value rest))
      as [Hw' [Ht' Hn']].
    repeat split.
    + rewrite Hw', Hw. reflexivity.
    + rewrite Ht', Ht. reflexivity.
    + intros H. inversion H; subst. apply Hn'; [assumption | now apply Hn].
Qed.

(** Aggregation leaves no outcome twice. *)
Lemma InA_add_mass (p : Q * Q) (value mass : Q) (pairs : list (Q * Q)) :
  InA same_outcome p (add_mass value mass pairs) ->
  fst p == value \/ InA same_outcome p pairs.
Proof.
  induction pairs as [| [v m] rest IH]; simpl; intros H.
  - inversion H as [? ? Hp | ? ? Hp]; subst; [left; exact Hp | inversion Hp].
  - destruct (Qeq_bool value v) eqn:E.
    + right. inversion H as [? ? Hp | ? ? Hp]; subst.
      * left. exact Hp.
      * right. exact Hp.
    + inversion H as [? ? Hp | ? ? Hp]; subst.
      * right. left. exact Hp.
      * destruct (IH Hp) as [Hv | Hin]; [left; exact Hv | right; right; exact Hin].
Qed.

Lemma add_mass_unique (value mass : Q) (pairs : list (Q * Q)) :
  NoDupA same_outcome pairs ->
  NoDupA same_outcome (add_mass value mass pairs).
Proof.
  induction 1 as [| [v m] rest Hnotin Hrest IH]; simpl.
  - constructor; [intros H; inversion H | constructor].
  - destruct (Qeq_bool value v) eqn:E.
    + constructor; [| exact Hrest].
      intros H. apply Hnotin.
      apply InA_eqA with (x := (v, m + mass)); try exact H.
      * split; unfold same_outcome; red; intros.
        -- reflexivity.
        -- symmetry; assumption.
        -- etransitivity; eassumption.
      * unfold same_outcome. reflexivity.
    + constructor; [| exact IH].
      intros H. apply InA_add_mass in H. destruct H as [Hv | Hin].
      * simpl in Hv. apply Qeq_bool_neq in E. apply E. symmetry. exact Hv.
      * apply Hnotin. exact Hin.
Qed.

Lemma aggregate_unique (distribution : SampledDistribution) :
  NoDupA same_outcome (aggregate distribution).
Proof.
  unfold aggregate.
  assert (H : forall merged, NoDupA same_outcome merged ->
            NoDupA same_outcome
              (fold_left (fun acc pair => add_mass (fst pair) (snd pair) acc)
                         distribution merged)).
  { induction distribution as [| pair rest IH]; intros merged Hm; simpl.
    - exact Hm.
    - apply IH. now apply add_mass_unique. }
  apply H. constructor.
Qed.

(** Sorting yields the pairs in ascending order of outcome. *)
Lemma insert_by_value_sorted (pair : Q * Q) (sorted : list (Q * Q)) :
  Sorted outcome_le sorted -> Sorted outcome_le (insert_by_value pair sorted).
Proof.
  induction 1 as [| head rest Hrest IH Hhd]; simpl.
  - constructor; constructor.
  - destruct (Qle_bool (fst pair) (fst head)) eqn:E.
    + apply Qle_bool_iff in E.
      constructor; [constructor; assumption | constructor; exact E].
    + assert (Hlt : fst head <= fst pair).
      { apply Qlt_le_weak. apply Qnot_le_lt. intros Hle.
        apply Qle_bool_iff in Hle. congruence. }
      constructor; [exact IH |].
      destruct rest as [| next rest']; simpl.
      * constructor. exact Hlt.
      * inversion Hhd; subst.
        destruct (Qle_bool (fst pair) (fst next)); constructor; assumption.
Qed.

Lemma sort_by_value_sorted (pairs : list (Q * Q)) :
  Sorted outcome_le (sort_by_value pairs).
Proof.
  induction pairs as [| pair rest IH]; simpl.
  - constructor.
  - now apply insert_by_value_sorted.
Qed.

(** Non-negative masses have a non-negative total; when the total is not
    positive, every mass is zero and nothing is contributed. *)
Lemma total_mass_nonneg (pairs : list (Q * Q)) :
  nonneg pairs -> 0 <= total_mass pairs.
Proof.
  induction 1 as [| [v m] rest Hpair Hrest IH]; simpl in *; lra.
Qed.

Lemma no_mass_no_contribution (pairs : list (Q * Q)) :
  nonneg pairs -> total_mass pairs <= 0 -> weighted_sum pairs == 0.
Proof.
  induction 1 as [| [v m] rest Hpair Hrest IH]; simpl in *; intros Htot.
  - reflexivity.
  - pose proof (total_mass_nonneg Hrest) as Hr.
    assert (Hm : m == 0) by lra.
    rewrite Hm, IH by lra. ring.
Qed.

(** At alpha = 1, with [cumulative] and the remaining masses summing to
    one, the walk gathers the whole weighted sum of the remaining pairs:
    the boundary pair is taken with all of its mass and the pairs after it
    carry none. *)
Lemma accumulate_at_one (pairs : list (Q * Q)) :
  forall cumulative included,
    nonneg pairs ->
    cumulative + total_mass pairs == 1 ->
    accumulate 1 cumulative included pairs == included + weighted_sum pairs.
Proof.
  induction pairs as [| [v m] rest IH]; intros cumulative included Hn Ht;
    simpl in *.
  - ring.
  - inversion Hn as [| ? ? Hm Hrest]; subst. simpl in Hm.
    pose proof (total_mass_nonneg Hrest) as Hr.
    destruct (Qle_bool 1 (cumulative + m)) eqn:E.
    + apply Qle_bool_iff in E.
      assert (Hz : weighted_sum rest == 0)
        by (apply no_mass_no_contribution; [assumption | lra]).
      assert (Hc : 1 - cumulative == m) by lra.
      rewrite Hz, Hc. ring.
    + rewrite IH; [ring | assumption | lra].
Qed.

(** C9.  On a valid distribution (not empty, no negative mass, total mass
    one) the estimate at alpha = 1 is returned, and it equals the plain
    probability-weighted mean of the distribution as it was given. *)
Theorem estimate_at_one_is_mean (distribution : SampledDistribution) :
  valid_distribution distribution ->
  exists r, estimate distribution 1 = Return r /\ r == mean distribution.
Proof.
  intros [Hne [Hn Ht]].
  destruct distribution as [| pair rest] eqn:Hd; [now elim Hne |].
  rewrite <- Hd in *. clear Hne.
  exists (accumulate 1 0 0 (sort_by_value (aggregate distribution)) / 1).
  split; [rewrite Hd; reflexivity |].
  destruct (aggregate_invariants distribution []) as [Hw [Hm Hnn]].
  fold (aggregate distribution) in Hw, Hm, Hnn.
  destruct (sort_by_value_invariants (aggregate distribution))
    as [Hw' [Hm' Hnn']].
  unfold mean. rewrite Ht.
  rewrite accumulate_at_one.
  - rewrite Hw', Hw. simpl. field.
  - apply Hnn', Hnn; [assumption | constructor].
  - rewrite Hm', Hm, Ht. simpl. ring.
Qed.

End EstimatorProperties.

(** * The properties at concrete inputs *)

(** The converter run on the diagonal tree, with [CVaRMeasurement] a kind
    of [OperatorStateFn] and the constructor checking its arguments: both
    measurements are replaced, the rest is kept. *)
Example convert_diagonal_tree :
  convert true pauli_check (@identity_converter string) sample_converter
          diagonal_tree =
  Return
    (ListOp SumRule
       [ CVaRMeasurement "ZZ"%string (1 # 4);
         OperatorStateFn "psi"%string false;
         ListOp ListRule
           [ CVaRMeasurement "ZI"%string (1 # 4);
             OtherOp "PauliOp"%string "YI"%string ] ]).
Proof. reflexivity. Qed.

(** An error of the base converter passes through [convert]. *)
Example convert_failing_base :
  convert true pauli_check (@failing_converter string) sample_converter
          diagonal_tree =
  Raise (NotImplementedError None).
Proof. reflexivity. Qed.

(** C1, as stated, fails: [CVaRExpectation(2)] is constructed, the base
    converter returns a tree with one measurement, and [convert] returns
    no tree: the constructor of [CVaRMeasurement] refuses alpha = 2. *)
Lemma convert_raises_at_rejected_alpha :
  init (2 # 1) None = Return wide_converter /\
  identity_converter PauliExpectation (OperatorStateFn "ZZ"%string true) =
    Return (OperatorStateFn "ZZ"%string true) /\
  convert true pauli_check (@identity_converter string) wide_converter
          (OperatorStateFn "ZZ"%string true) = Raise ValueError.
Proof. repeat split. Qed.


(** The scenarios of the specification. *)
Example estimate_two_point :
  exists r, estimate two_point (1 # 2) = Return r /\ r == 0.
Proof. eexists. split; reflexivity. Qed.

Example estimate_three_point :
  exists r, estimate three_point (1 # 2) = Return r /\ r == 2 # 1.
Proof. eexists. split; reflexivity. Qed.

Example estimate_single_point :
  exists r, estimate single_point (1 # 3) = Return r /\ r == 7 # 1.
Proof. eexists. split; reflexivity. Qed.

Example estimate_empty : estimate [] 1 = Raise EmptyDistribution.
Proof. reflexivity. Qed.

Example aggregate_then_sort :
  sort_by_value (aggregate unsorted_repeated) =
  [(0, 1 # 2); (10 # 1, (1 # 4) + (1 # 4))].
Proof. reflexivity. Qed.

(** The amended C1 on the diagonal tree. *)
Lemma convert_replaces_measurements_witness :
  identity_converter PauliExpectation diagonal_tree = Return diagonal_tree /\
  convert true pauli_check (@identity_converter string) sample_converter
          diagonal_tree =
    Return (replace_with_cvar true (1 # 4) diagonal_tree) /\
  subtree (replace_with_cvar true (1 # 4) diagonal_tree) [0%nat] =
    Some (CVaRMeasurement "ZZ"%string (1 # 4)) /\
  subtree (replace_with_cvar true (1 # 4) diagonal_tree) [2%nat; 0%nat] =
    Some (CVaRMeasurement "ZI"%string (1 # 4)).
Proof.
  split; [reflexivity | split; [reflexivity |]].
  destruct (convert_replaces_measurements
              true pauli_check (@identity_converter string)
              sample_converter diagonal_tree)
    as [_ H].
  destruct (H diagonal_tree (replace_with_cvar true (1 # 4) diagonal_tree)
              eq_refl eq_refl) as [Hm _].
  split; apply Hm; reflexivity.
Defined.


(** C5 on the sample tree and its inner list. *)
Lemma replace_preserves_structure_witness :
  subtree sample_tree [2%nat] =
    Some (ListOp ListRule
            [ OperatorStateFn "XX"%string true;
              OtherOp "PauliOp"%string "YI"%string ]) /\
  num_leaves (replace_with_cvar false (1 # 4) sample_tree) = 4%nat /\
  subtree (replace_with_cvar false (1 # 4) sample_tree) [2%nat] =
    Some (ListOp ListRule
            [ CVaRMeasurement "XX"%string (1 # 4);
              OtherOp "PauliOp"%string "YI"%string ]).
Proof.
  split; [reflexivity |].
  destruct (replace_preserves_structure false (1 # 4) sample_tree)
    as [Hleaves [_ Hchildren]].
  split.
  - rewrite Hleaves. reflexivity.
  - apply (Hchildren [2%nat] ListRule
             [ OperatorStateFn "XX"%string true;
               OtherOp "PauliOp"%string "YI"%string ]).
    reflexivity.
Defined.

(** C6 on the state leaf of the sample tree. *)
Lemma replace_keeps_other_leaves_witness :
  subtree sample_tree [1%nat] = Some (OperatorStateFn "psi"%string false) /\
  is_leaf (OperatorStateFn "psi"%string false) = true /\
  is_measurement_state_fn false (OperatorStateFn "psi"%string false) = false /\
  replace_with_cvar false (1 # 4) (OperatorStateFn "psi"%string false) =
    OperatorStateFn "psi"%string false /\
  subtree (replace_with_cvar false (1 # 4) sample_tree) [1%nat] =
    Some (OperatorStateFn "psi"%string false).
Proof.
  split; [reflexivity | split; [reflexivity | split; [reflexivity |]]].
  apply (replace_keeps_other_leaves false (1 # 4) sample_tree [1%nat]);
    reflexivity.
Defined.

(** C7 on a tree without measurements. *)
Lemma replace_identity_without_measurements_witness :
  forallb (fun n => negb (is_measurement_state_fn false n))
          (leaves state_only_tree) = true /\
  replace_with_cvar false (1 # 4) state_only_tree = state_only_tree /\
  shape (replace_with_cvar false (1 # 4) state_only_tree) =
    shape state_only_tree /\
  leaves (replace_with_cvar false (1 # 4) state_only_tree) =
    leaves state_only_tree.
Proof.
  split; [reflexivity |].
  apply (replace_identity_without_measurements false (1 # 4) state_only_tree).
  reflexivity.
Defined.

(** The amended C4 at a negative alpha and a matrix-based converter. *)
Lemma init_does_not_validate_alpha_witness :
  is_AerPauliExpectation
    (Some (OtherExpectation "MatrixExpectation"%string)) = false /\
  exists self,
    init (-1 # 1) (Some (OtherExpectation "MatrixExpectation"%string))
      = Return self /\
    alpha self = -1 # 1.
Proof.
  split; [reflexivity |].
  apply (init_does_not_validate_alpha
           (-1 # 1) (Some (OtherExpectation "MatrixExpectation"%string))).
  reflexivity.
Defined.

(** C9 on a distribution with a repeated outcome, given out of order. *)
Lemma estimate_at_one_is_mean_witness :
  valid_distribution unsorted_repeated /\
  exists r, estimate unsorted_repeated 1 = Return r /\
            r == mean unsorted_repeated.
Proof.
  assert (H : valid_distribution unsorted_repeated).
  { split; [discriminate |].
    split; [| reflexivity].
    repeat constructor; discriminate. }
  split; [exact H |].
  apply (@estimate_at_one_is_mean unsorted_repeated). exact H.
Defined.

(** * Further properties of the converter *)

Section FurtherProperties.

Variable Primitive : Type.
Variable cvar_flag : bool.
Variable cvar_check : Primitive -> Q -> option exn.
Variable base_convert :
  ExpectationBase -> OperatorBase Primitive -> result (OperatorBase Primitive).

Local Abbreviation tree := (OperatorBase Primitive).
Local Abbreviation replace := (replace_with_cvar cvar_flag).
Local Abbreviation convert := (convert cvar_flag cvar_check base_convert).

(** Rewriting twice: the second alpha reaches the created nodes exactly
    when [CVaRMeasurement] objects pass the measurement test. *)
Lemma replace_replace (a b : Q) (t : tree) :
  replace b (replace a t) = if cvar_flag then replace b t else replace a t.
Proof.
  induction t as [p m | p a' | rule l IH | c p] using OperatorBase_tree_ind.
  - destruct m; simpl; destruct cvar_flag; reflexivity.
  - simpl. destruct cvar_flag eqn:E; simpl; try rewrite E; reflexivity.
  - simpl. rewrite map_map.
    assert (H : map (fun x => replace b (replace a x)) l =
                map (fun x => if cvar_flag then replace b x else replace a x) l).
    { apply map_ext_in. intros c Hc. rewrite Forall_forall in IH.
      now apply IH. }
    rewrite H. destruct cvar_flag; reflexivity.
  - simpl. destruct cvar_flag; reflexivity.
Qed.

(** The leaves of the rewritten tree are the rewritten leaves. *)
Lemma leaves_replace (a : Q) (t : tree) :
  leaves (replace a t) = map (replace a) (leaves t).
Proof.
  induction t as [p m | p a' | rule l IH | c p] using OperatorBase_tree_ind.
  - destruct m; reflexivity.
  - simpl. destruct cvar_flag; reflexivity.
  - simpl. induction IH as [| c r Hc Hr IHr]; simpl.
    + reflexivity.
    + rewrite map_app, Hc, IHr. reflexivity.
  - reflexivity.
Qed.

(** X1.  Rewriting is idempotent, and rewriting with [b] after rewriting
    with [a] is a single rewriting: with [b] when [CVaRMeasurement] objects
    pass the measurement test, with [a] when they do not. *)
Theorem replace_twice (a b : Q) (t : tree) :
  replace_with_cvar cvar_flag a (replace_with_cvar cvar_flag a t) =
    replace_with_cvar cvar_flag a t /\
  replace_with_cvar cvar_flag b (replace_with_cvar cvar_flag a t) =
    if cvar_flag
    then replace_with_cvar cvar_flag b t
    else replace_with_cvar cvar_flag a t.
Proof.
  split; [| apply replace_replace].
  rewrite replace_replace. destruct cvar_flag; reflexivity.
Qed.

(** X2.  A converter whose base converter is itself a [CVaRExpectation]:
    when the inner converter raises, the stacked one raises the same
    exception; when the inner converter returns, the stacked one does what
    a single [CVaRExpectation] over the inner one's base converter does,
    be it a tree or an exception, with the outer alpha when
    [CVaRMeasurement] objects pass the measurement test and with the inner
    alpha when they do not. *)
Theorem convert_stacked (outer inner : CVaRExpectation) (operator : tree) :
  (forall op, base_convert (expectation outer) op = convert inner op) ->
  convert outer operator =
  match convert inner operator with
  | Raise e => Raise e
  | Return _ =>
      convert {| alpha := if cvar_flag then alpha outer else alpha inner;
                 expectation := expectation inner |} operator
  end.
Proof.
  intros H. rewrite (convert_unfold _ _ _ outer), H.
  rewrite !convert_unfold. simpl.
  destruct (base_convert (expectation inner) operator) as [t | e];
    [| reflexivity].
  destruct (first_rejection cvar_check (alpha inner)
                            (measured_primitives cvar_flag t)) eqn:E;
    [reflexivity |].
  rewrite measured_primitives_replace, replace_replace.
  destruct cvar_flag; simpl.
  - reflexivity.
  - rewrite E. reflexivity.
Qed.

(** X3.  The leaves of the rewritten tree are, in the same order, the
    leaves of the input, each rewritten on its own. *)
Theorem replace_leaves_in_order (a : Q) (t : tree) :
  leaves (replace a t) = map (replace a) (leaves t) /\
  length (leaves (replace a t)) = length (leaves t).
Proof.
  rewrite leaves_replace. split; [reflexivity | apply length_map].
Qed.

(** X4.  In every tree [convert] returns, at any depth, a node that
    passes the measurement test of the rewriting is a [CVaRMeasurement]
    carrying the converter's alpha. *)
Theorem convert_measurements_carry_alpha
        (self : CVaRExpectation) (operator out : tree) :
  convert self operator = Return out ->
  forall path n,
    subtree out path = Some n ->
    is_measurement_state_fn cvar_flag n = true ->
    exists p, n = CVaRMeasurement p (alpha self).
Proof.
  rewrite convert_unfold.
  destruct (base_convert (expectation self) operator) as [t | e];
    [| discriminate].
  destruct (first_rejection cvar_check (alpha self)
                            (measured_primitives cvar_flag t));
    [discriminate |].
  intros H. injection H as <-.
  intros path n Hn Hm. rewrite subtree_replace in Hn.
  destruct (subtree t path) as [n0 |]; [| discriminate Hn].
  simpl in Hn. injection Hn as <-.
  destruct n0 as [p m | p a' | rule l | c p].
  - destruct m; simpl in *; [exists p; reflexivity | discriminate Hm].
  - simpl in *. destruct cvar_flag eqn:E; simpl in Hm.
    + exists p. reflexivity.
    + discriminate Hm.
  - rewrite replace_ListOp in Hm. discriminate Hm.
  - discriminate Hm.
Qed.

(** X5.  The rewriting changes no observable: the observables carried by
    the leaves are the same, in the same order. *)
Theorem replace_keeps_primitives (a : Q) (t : tree) :
  primitives (replace a t) = primitives t.
Proof.
  induction t as [p m | p a' | rule l IH | c p] using OperatorBase_tree_ind.
  - destruct m; reflexivity.
  - simpl. destruct cvar_flag; reflexivity.
  - simpl. induction IH as [| c r Hc Hr IHr]; simpl.
    + reflexivity.
    + rewrite Hc, IHr. reflexivity.
  - reflexivity.
Qed.

(** X6.  The rewritten tree holds one [CVaRMeasurement] for every
    measurement [OperatorStateFn] and every [CVaRMeasurement] of the input,
    and no other. *)
Theorem replace_counts_measurements (a : Q) (t : tree) :
  length (filter (@is_CVaRMeasurement Primitive) (leaves (replace a t))) =
  length (filter (fun n => is_plain_measurement n || is_CVaRMeasurement n)
                 (leaves t)).
Proof.
  rewrite leaves_replace.
  induction (leaves t) as [| n r IH]; simpl.
  - reflexivity.
  - destruct n as [p m | p a' | rule l | c p]; simpl.
    + destruct m; simpl; rewrite IH; reflexivity.
    + destruct cvar_flag; simpl; rewrite IH; reflexivity.
    + exact IH.
    + exact IH.
Qed.

End FurtherProperties.

(** X2 on the stacked converters: the outer alpha 1/4 marks the
    measurements. *)
Lemma convert_stacked_witness :
  (forall op, stacked_dispatch (expectation outer_converter) op =
              convert true pauli_check stacked_dispatch inner_converter op) /\
  convert true pauli_check stacked_dispatch outer_converter diagonal_tree =
  convert true pauli_check stacked_dispatch
          {| alpha := 1 # 4; expectation := PauliExpectation |} diagonal_tree.
Proof.
  split; [intros op; reflexivity |].
  apply (convert_stacked true pauli_check stacked_dispatch
                         outer_converter inner_converter diagonal_tree).
  intros op. reflexivity.
Defined.

(** X4 on the diagonal tree, at the place of its first measurement. *)
Lemma convert_measurements_carry_alpha_witness :
  convert true pauli_check (@identity_converter string) sample_converter
          diagonal_tree =
    Return (replace_with_cvar true (1 # 4) diagonal_tree) /\
  subtree (replace_with_cvar true (1 # 4) diagonal_tree) [0%nat] =
    Some (CVaRMeasurement "ZZ"%string (1 # 4)) /\
  is_measurement_state_fn true (CVaRMeasurement "ZZ"%string (1 # 4)) = true /\
  exists p, CVaRMeasurement "ZZ"%string (1 # 4) = CVaRMeasurement p (1 # 4).
Proof.
  split; [reflexivity | split; [reflexivity | split; [reflexivity |]]].
  apply (@convert_measurements_carry_alpha
           string true pauli_check (@identity_converter string)
           sample_converter diagonal_tree
           (replace_with_cvar true (1 # 4) diagonal_tree)
           eq_refl [0%nat]);
    reflexivity.
Defined.
